(** * dodo: a bank ledger (accounts, transactions, storage) in Go

    Shallow embedding of the account transaction engine
    ([AccountServiceImpl]: Deposit, Withdraw, Transfer, GetBalance,
    GetStatement), of the [Storage] interface and of its in-memory
    implementation [MemoryStorage].

    The repository holds the same code three times (one flat [main]
    package, and the layered packages [models], [errors], [interfaces],
    [services], [storage], [app]); the three copies of every function
    modelled here are textually identical up to package qualifiers.

    Modelling choices.
    - [float64] is Rocq's primitive binary64 [float]: [+], [-], [<=] and
      [<] are the IEEE 754 operations of Go, NaN and infinities included.
      Concrete runs evaluate them; general facts go through the standard
      library's specification of these operations ([FloatAxioms], over
      [SpecFloat]).
    - [*Account] is a location in a heap [gmap loc Account]; a location
      outside the heap stands for the nil pointer, and dereferencing it is
      a run-time panic (the computation yields [None]).
    - [map[string]*Account] is a [gmap string loc]: the storage keeps the
      pointer, not a copy, so later writes through the pointer are visible
      to whoever loads the account.
    - [time.Now()] reads a clock that belongs to the environment: the
      world carries the sequence of readings the clock will give and the
      number of readings taken so far.
    - Go standard-library functions whose result is only printed
      ([Time.Format], the [%.2f] verb) are fields of the class [GoLib]. *)

From Stdlib Require Import ZArith Floats String Ascii List Bool Lia.
From Stdlib Require Import DecimalString DecimalZ DecimalPos.
From stdpp Require Import gmap strings list fin_maps.

Open Scope string_scope.

(* ===================================================================== *)
(** * Go library *)
(* ===================================================================== *)

Class GoLib := {
  (** [time.Time] *)
  Time : Type;
  (** [func (t Time) UnixNano() int64] *)
  UnixNano : Time → Z;
  (** [func (t Time) Format(layout string) string] *)
  Time_Format : Time → string → string;
  (** [fmt.Sprintf("%.2f", x)] *)
  Sprintf_2f : float → string;
}.

(** [fmt.Sprintf("%d", n)] for an [int64]. *)
Definition Sprintf_d (n : Z) : string := NilZero.string_of_int (Z.to_int n).

(** The line feed of Go's ["\n"]. *)
Definition LF : string := String (ascii_of_nat 10) EmptyString.

(* ===================================================================== *)
(** * package errors *)
(* ===================================================================== *)

(** The four sentinel errors of the repository; [ErrIO] stands for an
    error value of another origin, as a [Storage] backend may return. *)
Inductive error :=
  | ErrInsufficientFunds
  | ErrInvalidAmount
  | ErrAccountNotFound
  | ErrSameAccountTransfer
  | ErrIO (msg : string).

(* ===================================================================== *)
(** * package models *)
(* ===================================================================== *)

(** [type TransactionType string] *)
Definition TransactionType := string.
Definition DepositTransaction : TransactionType := "DEPOSIT".
Definition WithdrawTransaction : TransactionType := "WITHDRAW".
Definition TransferTransaction : TransactionType := "TRANSFER".

Section Models.
Context `{GoLib}.

Record Transaction := {
  tx_ID : string;
  tx_Type : TransactionType;
  tx_Amount : float;
  tx_Timestamp : Time;
  tx_Message : string;
}.

Record Account := {
  ID : string;
  OwnerName : string;
  Balance : float;
  Transactions : list Transaction;
  CreatedAt : Time;
}.

(** [a.Balance = b] *)
Definition set_Balance (b : float) (a : Account) : Account :=
  {| ID := ID a; OwnerName := OwnerName a; Balance := b;
     Transactions := Transactions a; CreatedAt := CreatedAt a |}.

(** [a.Transactions = append(a.Transactions, tx)] *)
Definition append_Transaction (tx : Transaction) (a : Account) : Account :=
  {| ID := ID a; OwnerName := OwnerName a; Balance := Balance a;
     Transactions := Transactions a ++ [tx]; CreatedAt := CreatedAt a |}.

End Models.

(** [*Account]: a heap location. *)
Abbreviation loc := positive.

(* ===================================================================== *)
(** * package interfaces *)
(* ===================================================================== *)

(** [type Storage interface]. A backend of state [B] receives the pointer
    and may read the heap through it, but does not write to the accounts:
    its effect is on its own state. [None] is a panic. The second
    component of a result is Go's [error] ([None] for [nil]). *)
Class Storage `{GoLib} (B : Type) := {
  SaveAccount : B → gmap loc Account → loc → option (B * option error);
  LoadAccount : B → string → option loc * option error;
  GetAllAccounts : B → list loc * option error;
}.

(* ===================================================================== *)
(** * The world and the monad of effects *)
(* ===================================================================== *)

Section World.
Context `{GoLib} {B : Type}.

Record World := {
  heap : gmap loc Account;
  storage : B;
  clock : nat → Time;
  ticks : nat;
}.

(** Field assignments. *)
Definition set_heap (h : gmap loc Account) (w : World) : World :=
  {| heap := h; storage := storage w; clock := clock w; ticks := ticks w |}.

Definition set_storage (b : B) (w : World) : World :=
  {| heap := heap w; storage := b; clock := clock w; ticks := ticks w |}.

Definition advance (w : World) : World :=
  {| heap := heap w; storage := storage w; clock := clock w; ticks := S (ticks w) |}.

(** A computation either panics ([None]) or yields a value and the next
    world. *)
Definition M (A : Type) : Type := World → option (A * World).

Definition ret {A} (x : A) : M A := λ w, Some (x, w).

Definition bind {A C} (m : M A) (k : A → M C) : M C :=
  λ w, match m w with
       | Some (x, w') => k x w'
       | None => None
       end.

(** Reading through a pointer. *)
Definition deref (p : loc) : M Account :=
  λ w, match heap w !! p with
       | Some a => Some (a, w)
       | None => None
       end.

(** Writing through a pointer. *)
Definition update (p : loc) (f : Account → Account) : M unit :=
  λ w, match heap w !! p with
       | Some a => Some (tt, set_heap (<[p := f a]> (heap w)) w)
       | None => None
       end.

(** [time.Now()] *)
Definition time_Now : M Time :=
  λ w, Some (clock w (ticks w), advance w).

End World.

Arguments World {_} B.
Arguments M {_} B A.

Notation "x <- c1 ;; c2" := (bind c1 (λ x, c2))
  (at level 20, c1 at level 99, c2 at level 200, only parsing).
Notation "c1 ;; c2" := (bind c1 (λ _, c2))
  (at level 100, c2 at level 200, only parsing).

(* ===================================================================== *)
(** * package models: constructors *)
(* ===================================================================== *)

Section Engine.
Context `{GoLib} {B : Type} `{!Storage B}.

(** [&Account{...}]: a fresh heap cell. *)
Definition alloc (a : Account) : M B loc :=
  λ w, let p := fresh (dom (heap w)) in
       Some (p, set_heap (<[p := a]> (heap w)) w).

Definition generateID : M B string :=
  t <- time_Now ;;
  ret ("ACC" ++ Sprintf_d (UnixNano t)).

Definition NewAccount (ownerName : string) : M B loc :=
  id <- generateID ;;
  t <- time_Now ;;
  alloc {| ID := id; OwnerName := ownerName; Balance := 0;
           Transactions := []; CreatedAt := t |}.

(* ===================================================================== *)
(** * package services *)
(* ===================================================================== *)

(** [AccountServiceImpl]: the bound account. Its second field, [storage],
    is a reference to the backend, whose state is [storage w] of the
    world. *)
Record AccountServiceImpl := { account : loc }.

Definition NewAccountService (a : loc) : AccountServiceImpl := {| account := a |}.

(** [s.storage.SaveAccount(p)] *)
Definition storage_SaveAccount (p : loc) : M B (option error) :=
  λ w, match SaveAccount (storage w) (heap w) p with
       | Some (b, e) => Some (e, set_storage b w)
       | None => None
       end.

(** The record a mutating operation builds: two clock readings, the
    first for the identifier, the second for the timestamp. *)
Definition new_Transaction (ty : TransactionType) (amount : float) (message : string)
  : M B Transaction :=
  t_id <- time_Now ;;
  t_ts <- time_Now ;;
  ret {| tx_ID := "TX" ++ Sprintf_d (UnixNano t_id);
         tx_Type := ty;
         tx_Amount := amount;
         tx_Timestamp := t_ts;
         tx_Message := message |}.

Definition Deposit (s : AccountServiceImpl) (amount : float) : M B (option error) :=
  if (amount <=? 0)%float then ret (Some ErrInvalidAmount) else
  update (account s) (λ a, set_Balance (Balance a + amount) a) ;;
  transaction <- new_Transaction DepositTransaction amount
                   ("Пополнение счета на " ++ Sprintf_2f amount) ;;
  update (account s) (append_Transaction transaction) ;;
  storage_SaveAccount (account s).

Definition Withdraw (s : AccountServiceImpl) (amount : float) : M B (option error) :=
  if (amount <=? 0)%float then ret (Some ErrInvalidAmount) else
  a <- deref (account s) ;;
  if (Balance a <? amount)%float then ret (Some ErrInsufficientFunds) else
  update (account s) (λ a, set_Balance (Balance a - amount) a) ;;
  transaction <- new_Transaction WithdrawTransaction amount
                   ("Снятие средств на " ++ Sprintf_2f amount) ;;
  update (account s) (append_Transaction transaction) ;;
  storage_SaveAccount (account s).

Definition Transfer (s : AccountServiceImpl) (to : loc) (amount : float)
  : M B (option error) :=
  if (amount <=? 0)%float then ret (Some ErrInvalidAmount) else
  a <- deref (account s) ;;
  if (Balance a <? amount)%float then ret (Some ErrInsufficientFunds) else
  t <- deref to ;;
  if String.eqb (ID a) (ID t) then ret (Some ErrSameAccountTransfer) else
  update (account s) (λ a, set_Balance (Balance a - amount) a) ;;
  transaction <- new_Transaction TransferTransaction amount
                   ("Перевод счету " ++ ID t ++ " на " ++ Sprintf_2f amount) ;;
  update (account s) (append_Transaction transaction) ;;
  update to (λ t, set_Balance (Balance t + amount) t) ;;
  toTransaction <- new_Transaction TransferTransaction amount
                     ("Перевод от счета " ++ ID a ++ " на " ++ Sprintf_2f amount) ;;
  update to (append_Transaction toTransaction) ;;
  err <- storage_SaveAccount (account s) ;;
  match err with
  | Some e => ret (Some e)
  | None => storage_SaveAccount to
  end.

Definition GetBalance (s : AccountServiceImpl) : M B float :=
  a <- deref (account s) ;;
  ret (Balance a).

(** [strings.Builder]: the text written so far. *)
Definition WriteString (sb : string) (s : string) : string := sb ++ s.

Definition rule : string := "========================================" ++ LF.

(** [fmt.Sprintf("%s | %s | %.2f | %s\n", ...)] of the loop body. *)
Definition statement_line (tx : Transaction) : string :=
  Time_Format (tx_Timestamp tx) "2006-01-02 15:04:05" ++ " | " ++ tx_Type tx
    ++ " | " ++ Sprintf_2f (tx_Amount tx) ++ " | " ++ tx_Message tx ++ LF.

Definition GetStatement (s : AccountServiceImpl) : M B string :=
  a <- deref (account s) ;;
  if (length (Transactions a) =? 0)%nat then ret "История транзакций пуста" else
  let sb := "" in
  let sb := WriteString sb ("Выписка по счету:" ++ LF) in
  let sb := WriteString sb rule in
  let sb := WriteString sb ("Владелец: " ++ OwnerName a ++ LF) in
  let sb := WriteString sb ("ID счета: " ++ ID a ++ LF) in
  let sb := WriteString sb rule in
  let sb := fold_left (λ sb tx, WriteString sb (statement_line tx)) (Transactions a) sb in
  let sb := WriteString sb rule in
  let sb := WriteString sb ("Текущий баланс: " ++ Sprintf_2f (Balance a) ++ LF) in
  ret sb.

End Engine.

(* ===================================================================== *)
(** * package storage *)
(* ===================================================================== *)

Section MemoryStorage.
Context `{GoLib}.

Record MemoryStorage := { accounts : gmap string loc }.

Definition NewMemoryStorage : MemoryStorage := {| accounts := ∅ |}.

(** [s.accounts[account.ID] = account; return nil] *)
Definition MemoryStorage_SaveAccount (s : MemoryStorage) (h : gmap loc Account)
    (account : loc) : option (MemoryStorage * option error) :=
  match h !! account with
  | Some a => Some ({| accounts := <[ID a := account]> (accounts s) |}, None)
  | None => None
  end.

Definition MemoryStorage_LoadAccount (s : MemoryStorage) (accountID : string)
  : option loc * option error :=
  match accounts s !! accountID with
  | Some account => (Some account, None)
  | None => (None, Some ErrAccountNotFound)
  end.

(** Go leaves the iteration order of a map unspecified; the order of
    [map_to_list] is one of the admissible ones. *)
Definition MemoryStorage_GetAllAccounts (s : MemoryStorage) : list loc * option error :=
  (snd <$> map_to_list (accounts s), None).

#[export] Instance MemoryStorage_Storage : Storage MemoryStorage := {
  SaveAccount := MemoryStorage_SaveAccount;
  LoadAccount := MemoryStorage_LoadAccount;
  GetAllAccounts := MemoryStorage_GetAllAccounts;
}.

End MemoryStorage.

(* ===================================================================== *)
(** * Sequences of operations and the balance invariant *)
(* ===================================================================== *)

Section Runs.
Context `{GoLib} {B : Type} `{!Storage B}.

(** One call of a mutating operation of the engine. *)
Inductive Op :=
  | OpDeposit (s : AccountServiceImpl) (amount : float)
  | OpWithdraw (s : AccountServiceImpl) (amount : float)
  | OpTransfer (s : AccountServiceImpl) (to : loc) (amount : float).

Definition run_op (o : Op) : M B (option error) :=
  match o with
  | OpDeposit s amount => Deposit s amount
  | OpWithdraw s amount => Withdraw s amount
  | OpTransfer s to amount => Transfer s to amount
  end.

(** The world after a sequence of operations every one of which returned
    [nil]; [None] when one of them returned an error or panicked. *)
Fixpoint run_successfully (ops : list Op) (w : World B) : option (World B) :=
  match ops with
  | [] => Some w
  | o :: ops' =>
      match run_op o w with
      | Some (None, w') => run_successfully ops' w'
      | _ => None
      end
  end.

(** The amount an operation is called with. *)
Definition op_amount (o : Op) : float :=
  match o with
  | OpDeposit _ amount | OpWithdraw _ amount | OpTransfer _ _ amount => amount
  end.

(** [balance >= 0] for every account of the heap, with Go's [>=]. *)
Definition BalancesNonNegative (w : World B) : Prop :=
  ∀ p a, heap w !! p = Some a → (0 <=? Balance a)%float = true.

End Runs.

(* ===================================================================== *)
(** * A backend whose writes can fail *)
(* ===================================================================== *)

(** The repository has one backend, and its [SaveAccount] never fails;
    the [Storage] interface lets a backend return an error.
    [QuotaStorage] is [MemoryStorage] with a bounded number of writes:
    once the quota is used up, [SaveAccount] returns an I/O error and
    stores nothing. It serves to run the engine on a failing backend. *)
Section QuotaStorage.
Context `{GoLib}.

Record QuotaStorage := { quota : nat; entries : gmap string loc }.

Definition QuotaStorage_SaveAccount (s : QuotaStorage) (h : gmap loc Account)
    (account : loc) : option (QuotaStorage * option error) :=
  match h !! account with
  | Some a =>
      match quota s with
      | O => Some (s, Some (ErrIO "no space left on device"))
      | S n => Some ({| quota := n; entries := <[ID a := account]> (entries s) |}, None)
      end
  | None => None
  end.

Definition QuotaStorage_LoadAccount (s : QuotaStorage) (accountID : string)
  : option loc * option error :=
  match entries s !! accountID with
  | Some account => (Some account, None)
  | None => (None, Some ErrAccountNotFound)
  end.

#[export] Instance QuotaStorage_Storage : Storage QuotaStorage := {
  SaveAccount := QuotaStorage_SaveAccount;
  LoadAccount := QuotaStorage_LoadAccount;
  GetAllAccounts := λ s, (snd <$> map_to_list (entries s), None);
}.

End QuotaStorage.

(* ===================================================================== *)
(** * Concrete worlds for running the model *)
(* ===================================================================== *)

(** An instance of the Go library for concrete runs: a time is its count
    of nanoseconds since the epoch. The two printing functions are
    stand-ins, [Format] printing that count and [%.2f] printing a
    placeholder; the general theorems hold for every instance. *)
#[export] Instance SimLib : GoLib := {
  Time := Z;
  UnixNano := λ t, t;
  Time_Format := λ t _, Sprintf_d t;
  Sprintf_2f := λ _, "#.##";
}.

(** An account as [NewAccount] leaves it, with the given balance. *)
Definition sim_account (id owner : string) (balance : float) : Account :=
  {| ID := id; OwnerName := owner; Balance := balance;
     Transactions := []; CreatedAt := 0%Z |}.

(** A clock that advances by one nanosecond per reading. *)
Definition ticking_clock : nat → Z := λ n, (1700000000000000000 + Z.of_nat n)%Z.

(** A clock that gives the same reading every time it is read: a clock
    whose resolution is coarser than the time between two readings. *)
Definition coarse_clock : nat → Z := λ _, 1700000000000000000%Z.

(** Two accounts, [ACC1] at location 1 and [ACC2] at location 2, saved in
    the in-memory storage. *)
Definition sim_world (balance1 balance2 : float) (clk : nat → Z) : World MemoryStorage :=
  {| heap := <[1%positive := sim_account "ACC1" "Ann" balance1]>
             (<[2%positive := sim_account "ACC2" "Bob" balance2]> ∅);
     storage := {| accounts := <["ACC1" := 1%positive]> (<["ACC2" := 2%positive]> ∅) |};
     clock := clk;
     ticks := 0 |}.

Arguments sim_account _ _ _%_float.
Arguments sim_world (_ _)%_float _.

(** The world [sim_world 0 0] after a deposit of 100 and a withdrawal of
    30 on the first account. *)
Definition sim_world_history : World MemoryStorage :=
  match run_successfully [OpDeposit (NewAccountService 1) 100;
                          OpWithdraw (NewAccountService 1) 30]
          (sim_world 0 0 ticking_clock) with
  | Some w => w
  | None => sim_world 0 0 ticking_clock
  end.

(** The scenario of the specification, from an empty heap and an empty
    storage: create A, deposit 100, create B, transfer 40 from A to B,
    try to withdraw 1000 from A. It yields the three results, the two
    balances and the two numbers of transactions. *)
Definition scenario
  : M MemoryStorage (option error * option error * option error * float * float * nat * nat) :=
  a <- NewAccount "A" ;;
  storage_SaveAccount a ;;
  e1 <- Deposit (NewAccountService a) 100 ;;
  b <- NewAccount "B" ;;
  storage_SaveAccount b ;;
  e2 <- Transfer (NewAccountService a) b 40 ;;
  e3 <- Withdraw (NewAccountService a) 1000 ;;
  accA <- deref a ;;
  accB <- deref b ;;
  ret (e1, e2, e3, Balance accA, Balance accB,
       length (Transactions accA), length (Transactions accB)).

(** The same two accounts over a backend with [n] writes left. *)
Definition sim_world_quota (n : nat) (balance1 balance2 : float) : World QuotaStorage :=
  {| heap := <[1%positive := sim_account "ACC1" "Ann" balance1]>
             (<[2%positive := sim_account "ACC2" "Bob" balance2]> ∅);
     storage := {| quota := n; entries := ∅ |};
     clock := ticking_clock;
     ticks := 0 |}.

Arguments sim_world_quota _ (_ _)%_float.

(** [0 <= x] on the specification of binary64 numbers. *)
Definition SFnonneg (x : spec_float) : Prop := SFleb (S754_zero false) x = true.

(* ===================================================================== *)
(** * IEEE comparisons *)
(* ===================================================================== *)

Section Comparisons.

Lemma SFcompare_antisym (x y : spec_float) :
  SFcompare y x = option_map CompOpp (SFcompare x y).
Proof.
  destruct x as [sx|sx| |sx mx ex], y as [sy|sy| |sy my ey]; simpl;
    try reflexivity; try (destruct sx; reflexivity); try (destruct sy; reflexivity);
    try (destruct sx, sy; reflexivity).
  destruct sx, sy; simpl; try reflexivity.
  - rewrite (Z.compare_antisym ex ey).
    destruct (ex ?= ey)%Z; simpl; try reflexivity.
    rewrite (Pos.compare_cont_antisym mx my Eq). simpl.
    now destruct (Pos.compare_cont Eq my mx).
  - rewrite (Z.compare_antisym ex ey).
    destruct (ex ?= ey)%Z; simpl; try reflexivity.
    now rewrite (Pos.compare_cont_antisym mx my Eq).
Qed.

(** [x < y] excludes [y <= x]. *)
Lemma ltb_true_leb_false (x y : float) :
  (x <? y)%float = true → (y <=? x)%float = false.
Proof.
  rewrite ltb_spec, leb_spec. unfold SFltb, SFleb.
  rewrite (SFcompare_antisym (Prim2SF x) (Prim2SF y)).
  destruct (SFcompare (Prim2SF x) (Prim2SF y)) as [[]|]; simpl; congruence.
Qed.

(** [x <= y] excludes [y < x]. *)
Lemma leb_true_ltb_false (x y : float) :
  (x <=? y)%float = true → (y <? x)%float = false.
Proof.
  rewrite ltb_spec, leb_spec. unfold SFltb, SFleb.
  rewrite (SFcompare_antisym (Prim2SF x) (Prim2SF y)).
  destruct (SFcompare (Prim2SF x) (Prim2SF y)) as [[]|]; simpl; congruence.
Qed.

(** With [0 <= x < y], the test [y <= 0] fails. *)
Lemma nonneg_ltb_pos (x y : float) :
  (0 <=? x)%float = true → (x <? y)%float = true → (y <=? 0)%float = false.
Proof.
  rewrite ltb_spec, !leb_spec. unfold SFltb, SFleb.
  change (Prim2SF 0) with (S754_zero false).
  destruct (Prim2SF x) as [sx|sx| |sx mx ex], (Prim2SF y) as [sy|sy| |sy my ey];
    simpl; try congruence;
    try (destruct sx; simpl; congruence); try (destruct sy; simpl; congruence);
    try (destruct sx, sy; simpl; congruence).
Qed.

End Comparisons.

(* ===================================================================== *)
(** * IEEE addition and subtraction on non-negative numbers *)
(* ===================================================================== *)

Section NonNegative.
Local Open Scope Z_scope.

Lemma SFnonneg_cases x :
  SFnonneg x ↔ (∃ s, x = S754_zero s) ∨ x = S754_infinity false ∨ ∃ m e, x = S754_finite false m e.
Proof.
  unfold SFnonneg, SFleb. split.
  - destruct x as [s|[]| |[] m e]; simpl; try discriminate; eauto.
  - intros [[s ->]|[->|(m & e & ->)]]; reflexivity.
Qed.

Lemma shr_1_nonneg mrs : 0 <= shr_m mrs → 0 <= shr_m (shr_1 mrs).
Proof.
  destruct mrs as [m r s]. simpl. destruct m as [|[p|p|]|[p|p|]]; simpl; lia.
Qed.

Lemma iter_pos_shr_1_nonneg p : ∀ mrs, 0 <= shr_m mrs → 0 <= shr_m (SpecFloat.iter_pos shr_1 p mrs).
Proof.
  induction p as [p IH|p IH|]; intros mrs Hm; simpl.
  - apply IH, IH, shr_1_nonneg, Hm.
  - apply IH, IH, Hm.
  - apply shr_1_nonneg, Hm.
Qed.

Lemma shr_fexp_nonneg m e l : 0 <= m → 0 <= shr_m (fst (shr_fexp prec emax m e l)).
Proof.
  intros Hm. unfold shr_fexp, shr.
  assert (H0 : 0 <= shr_m (shr_record_of_loc m l)) by (destruct l as [|[]]; exact Hm).
  destruct (fexp prec emax (Zdigits2 m + e) - e); simpl; auto using iter_pos_shr_1_nonneg.
Qed.

Lemma round_nearest_even_nonneg m l : 0 <= m → 0 <= round_nearest_even m l.
Proof.
  intros Hm. destruct l as [|[]]; simpl; try lia. destruct (Z.even m); lia.
Qed.

Lemma binary_round_aux_nonneg m e l :
  0 <= m → SFnonneg (binary_round_aux prec emax false m e l).
Proof.
  intros Hm. unfold binary_round_aux.
  pose proof (shr_fexp_nonneg m e l Hm) as H1.
  destruct (shr_fexp prec emax m e l) as [mrs' e']. simpl in H1.
  pose proof (shr_fexp_nonneg _ e' loc_Exact
                (round_nearest_even_nonneg _ (loc_of_shr_record mrs') H1)) as H2.
  destruct (shr_fexp prec emax _ e' loc_Exact) as [mrs'' e'']. simpl in H2.
  destruct (shr_m mrs''); [reflexivity| |lia].
  destruct (e'' <=? emax - prec); reflexivity.
Qed.

Lemma binary_normalize_nonneg m e :
  0 <= m → SFnonneg (binary_normalize prec emax m e false).
Proof.
  intros Hm. destruct m as [|p|p]; [reflexivity| |lia].
  unfold binary_normalize, binary_round.
  destruct (shl_align p e _) as [mz ez]. apply binary_round_aux_nonneg. lia.
Qed.

Lemma SFadd_nonneg x y : SFnonneg x → SFnonneg y → SFnonneg (SFadd prec emax x y).
Proof.
  intros Hx Hy. apply SFnonneg_cases in Hx, Hy.
  destruct Hx as [[sx ->]|[->|(mx & ex & ->)]], Hy as [[sy ->]|[->|(my & ey & ->)]];
    try reflexivity; try (destruct sx; reflexivity); try (destruct sx, sy; reflexivity).
  unfold SFadd. apply binary_normalize_nonneg. simpl. lia.
Qed.

Lemma digits2_pos_bounds m :
  2 ^ (Zpos (digits2_pos m) - 1) <= Zpos m < 2 ^ Zpos (digits2_pos m).
Proof.
  induction m as [m IH|m IH|]; simpl digits2_pos.
  - rewrite Pos2Z.inj_succ.
    replace (Z.succ (Zpos (digits2_pos m)) - 1) with (Z.succ (Zpos (digits2_pos m) - 1)) by lia.
    rewrite !Z.pow_succ_r by lia. lia.
  - rewrite Pos2Z.inj_succ.
    replace (Z.succ (Zpos (digits2_pos m)) - 1) with (Z.succ (Zpos (digits2_pos m) - 1)) by lia.
    rewrite !Z.pow_succ_r by lia. lia.
  - simpl. lia.
Qed.

Lemma iter_xO_value m d : Zpos (Pos.iter xO m d) = Zpos m * 2 ^ Zpos d.
Proof.
  induction d as [|d IH] using Pos.peano_ind.
  - simpl. lia.
  - rewrite Pos.iter_succ, Pos2Z.inj_succ, Z.pow_succ_r by lia.
    rewrite Pos2Z.inj_xO, IH. lia.
Qed.

Lemma shl_align_value m e e' :
  e' <= e → Zpos (fst (shl_align m e e')) = Zpos m * 2 ^ (e - e').
Proof.
  intros Hle. unfold shl_align.
  destruct (e' - e) as [|d|d] eqn:Hd; simpl.
  - replace (e - e') with 0 by lia. simpl. lia.
  - lia.
  - rewrite iter_xO_value. replace (e - e') with (Zpos d) by lia. reflexivity.
Qed.

(** For two valid positive binary64 numbers, the one with the larger
    exponent has the larger aligned mantissa. *)
Lemma aligned_mantissa_le mx ex my ey :
  valid_binary (S754_finite false mx ex) = true →
  valid_binary (S754_finite false my ey) = true →
  ey < ex →
  Zpos my <= Zpos mx * 2 ^ (ex - ey).
Proof.
  unfold SpecFloat.valid_binary, bounded, canonical_mantissa, fexp.
  intros Hx Hy Hlt.
  apply andb_true_iff in Hx as [Hx _]. apply andb_true_iff in Hy as [Hy _].
  apply Z.eqb_eq in Hx, Hy.
  pose proof (digits2_pos_bounds mx) as [Hmx _].
  pose proof (digits2_pos_bounds my) as [_ Hmy].
  change (SpecFloat.emin prec emax) with (-1074) in *. change prec with 53 in *.
  assert (Hdx : Zpos (digits2_pos mx) = 53) by lia.
  assert (Hdy : Zpos (digits2_pos my) <= 53) by lia.
  rewrite Hdx in Hmx.
  assert (H53 : 2 ^ Zpos (digits2_pos my) <= 2 ^ 53) by (apply Z.pow_le_mono_r; lia).
  assert (H2 : 2 ^ 1 <= 2 ^ (ex - ey)) by (apply Z.pow_le_mono_r; lia).
  change (2 ^ (53 - 1)) with 4503599627370496 in Hmx.
  change (2 ^ 53) with 9007199254740992 in H53.
  change (2 ^ 1) with 2 in H2.
  nia.
Qed.

Lemma SFsub_nonneg mx ex my ey :
  valid_binary (S754_finite false mx ex) = true →
  valid_binary (S754_finite false my ey) = true →
  SFleb (S754_finite false my ey) (S754_finite false mx ex) = true →
  SFnonneg (SFsub prec emax (S754_finite false mx ex) (S754_finite false my ey)).
Proof.
  intros Vx Vy Hle. unfold SFsub. apply binary_normalize_nonneg.
  unfold cond_Zopp. unfold SFleb, SFcompare in Hle.
  destruct (Z.compare_spec ey ex) as [->|Hlt|Hgt]; try discriminate.
  - rewrite Z.min_id, !shl_align_value by lia. rewrite Z.sub_diag. simpl (2 ^ 0).
    fold (Pos.compare my mx) in Hle.
    destruct (Pos.compare_spec my mx); try discriminate; lia.
  - rewrite Z.min_r by lia. rewrite !shl_align_value by lia.
    rewrite Z.sub_diag. simpl (2 ^ 0).
    pose proof (aligned_mantissa_le mx ex my ey Vx Vy Hlt). lia.
Qed.

Lemma leb_0_nonneg (x : float) : (0 <=? x)%float = true ↔ SFnonneg (Prim2SF x).
Proof. rewrite leb_spec. reflexivity. Qed.

Lemma add_nonneg (x a : float) :
  (0 <=? x)%float = true → (0 <=? a)%float = true → (0 <=? x + a)%float = true.
Proof.
  rewrite !leb_0_nonneg, add_spec. apply SFadd_nonneg.
Qed.

Lemma is_finite_spec (a : float) :
  is_finite a = true →
  Prim2SF a ≠ S754_nan ∧ ∀ s, Prim2SF a ≠ S754_infinity s.
Proof.
  unfold is_finite, is_nan, is_infinity. rewrite !FloatAxioms.eqb_spec, abs_spec.
  change (Prim2SF infinity) with (S754_infinity false).
  destruct (Prim2SF a) as [s|[]| |s m e]; simpl; try discriminate; intros _; split; congruence.
Qed.

Lemma finite_not_leb_0 (a : float) :
  is_finite a = true → (a <=? 0)%float = false → (0 <? a)%float = true.
Proof.
  intros Hfin. apply is_finite_spec in Hfin as [Hnan _].
  rewrite leb_spec, ltb_spec. unfold SFleb, SFltb.
  rewrite (SFcompare_antisym (Prim2SF a) (Prim2SF 0)).
  change (Prim2SF 0) with (S754_zero false).
  destruct (Prim2SF a) as [s|s| |s m e]; simpl; try congruence;
    destruct s; simpl; congruence.
Qed.

Lemma finite_not_ltb (x a : float) :
  is_finite a = true → (0 <=? x)%float = true → (x <? a)%float = false →
  (a <=? x)%float = true.
Proof.
  intros Hfin Hx. apply is_finite_spec in Hfin as [Hnan _].
  apply leb_0_nonneg, SFnonneg_cases in Hx.
  rewrite leb_spec, ltb_spec. unfold SFleb, SFltb.
  rewrite (SFcompare_antisym (Prim2SF x) (Prim2SF a)).
  destruct (SFcompare (Prim2SF x) (Prim2SF a)) as [[]|] eqn:Hc; simpl; try congruence.
  intros _. exfalso.
  destruct Hx as [[s Hx]|[Hx|(m & e & Hx)]]; rewrite Hx in Hc;
    destruct (Prim2SF a) as [s'|s'| |s' m' e']; simpl in Hc; congruence.
Qed.

Lemma sub_nonneg (x a : float) :
  is_finite a = true → (0 <? a)%float = true → (a <=? x)%float = true →
  (0 <=? x - a)%float = true.
Proof.
  intros Hfin Hpos Hle. apply is_finite_spec in Hfin as [_ Hinf].
  rewrite leb_0_nonneg, sub_spec.
  rewrite ltb_spec in Hpos. rewrite leb_spec in Hle.
  change (Prim2SF 0) with (S754_zero false) in Hpos.
  pose proof (Prim2SF_valid x) as Vx. pose proof (Prim2SF_valid a) as Va.
  destruct (Prim2SF a) as [sa|sa| |sa ma ea];
    try discriminate Hpos; [now destruct (Hinf sa)|].
  destruct sa; [discriminate Hpos|].
  destruct (Prim2SF x) as [sx|sx| |sx mx ex]; try discriminate Hle.
  - destruct sx; [discriminate Hle|reflexivity].
  - destruct sx; [discriminate Hle|]. now apply SFsub_nonneg.
Qed.

Lemma ltb_true_leb_true (x y : float) :
  (x <? y)%float = true → (x <=? y)%float = true.
Proof.
  rewrite ltb_spec, leb_spec. unfold SFltb, SFleb.
  destruct (SFcompare (Prim2SF x) (Prim2SF y)) as [[]|]; congruence.
Qed.

End NonNegative.

(* ===================================================================== *)
(** * The operations, step by step *)
(* ===================================================================== *)

Section Steps.
Context `{GoLib} {B : Type} `{!Storage B}.
Implicit Types (w : World B) (s : AccountServiceImpl) (a t : Account).

Lemma update_eq w p f a :
  heap w !! p = Some a →
  update p f w = Some (tt, set_heap (<[p := f a]> (heap w)) w).
Proof. intros Hp. unfold update. now rewrite Hp. Qed.

Lemma deref_eq w p a : heap w !! p = Some a → deref p w = Some (a, w).
Proof. intros Hp. unfold deref. now rewrite Hp. Qed.

(** Two accounts with different identifiers live at different
    locations. *)
Lemma distinct_ID_distinct_loc w p q a t :
  heap w !! p = Some a → heap w !! q = Some t → ID a ≠ ID t → p ≠ q.
Proof. intros Hp Hq Hne ->. rewrite Hp in Hq. congruence. Qed.

(** Deposit past its validation: the account is credited, the record is
    appended, two clock readings are consumed, and the result is that of
    the backend's [SaveAccount] on the new heap. *)
Lemma Deposit_run s amount w a :
  (amount <=? 0)%float = false →
  heap w !! account s = Some a →
  let tx := {| tx_ID := "TX" ++ Sprintf_d (UnixNano (clock w (ticks w)));
               tx_Type := DepositTransaction;
               tx_Amount := amount;
               tx_Timestamp := clock w (S (ticks w));
               tx_Message := "Пополнение счета на " ++ Sprintf_2f amount |} in
  let a' := {| ID := ID a; OwnerName := OwnerName a;
               Balance := (Balance a + amount)%float;
               Transactions := Transactions a ++ [tx];
               CreatedAt := CreatedAt a |} in
  let w1 := {| heap := <[account s := a']> (heap w); storage := storage w;
               clock := clock w; ticks := S (S (ticks w)) |} in
  Deposit s amount w =
    match SaveAccount (storage w) (heap w1) (account s) with
    | Some (b, e) => Some (e, set_storage b w1)
    | None => None
    end.
Proof.
  intros Hpos Ha. simpl. unfold Deposit. rewrite Hpos.
  unfold bind at 1. rewrite (update_eq _ _ _ _ Ha).
  unfold bind, new_Transaction, time_Now, ret, update, storage_SaveAccount. simpl.
  rewrite lookup_insert_eq. simpl. rewrite insert_insert_eq. reflexivity.
Qed.

Lemma Withdraw_run s amount w a :
  (amount <=? 0)%float = false →
  heap w !! account s = Some a →
  (Balance a <? amount)%float = false →
  let tx := {| tx_ID := "TX" ++ Sprintf_d (UnixNano (clock w (ticks w)));
               tx_Type := WithdrawTransaction;
               tx_Amount := amount;
               tx_Timestamp := clock w (S (ticks w));
               tx_Message := "Снятие средств на " ++ Sprintf_2f amount |} in
  let a' := {| ID := ID a; OwnerName := OwnerName a;
               Balance := (Balance a - amount)%float;
               Transactions := Transactions a ++ [tx];
               CreatedAt := CreatedAt a |} in
  let w1 := {| heap := <[account s := a']> (heap w); storage := storage w;
               clock := clock w; ticks := S (S (ticks w)) |} in
  Withdraw s amount w =
    match SaveAccount (storage w) (heap w1) (account s) with
    | Some (b, e) => Some (e, set_storage b w1)
    | None => None
    end.
Proof.
  intros Hpos Ha Hfunds. simpl. unfold Withdraw. rewrite Hpos.
  unfold bind at 1. rewrite (deref_eq _ _ _ Ha), Hfunds.
  unfold bind at 1. rewrite (update_eq _ _ _ _ Ha).
  unfold bind, new_Transaction, time_Now, ret, update, storage_SaveAccount. simpl.
  rewrite lookup_insert_eq. simpl. rewrite insert_insert_eq. reflexivity.
Qed.

Lemma Transfer_run s to amount w a t :
  (amount <=? 0)%float = false →
  heap w !! account s = Some a →
  (Balance a <? amount)%float = false →
  heap w !! to = Some t →
  ID a ≠ ID t →
  let tx := {| tx_ID := "TX" ++ Sprintf_d (UnixNano (clock w (ticks w)));
               tx_Type := TransferTransaction;
               tx_Amount := amount;
               tx_Timestamp := clock w (S (ticks w));
               tx_Message := "Перевод счету " ++ ID t ++ " на " ++ Sprintf_2f amount |} in
  let toTx := {| tx_ID := "TX" ++ Sprintf_d (UnixNano (clock w (S (S (ticks w)))));
                 tx_Type := TransferTransaction;
                 tx_Amount := amount;
                 tx_Timestamp := clock w (S (S (S (ticks w))));
                 tx_Message := "Перевод от счета " ++ ID a ++ " на " ++ Sprintf_2f amount |} in
  let a' := {| ID := ID a; OwnerName := OwnerName a;
               Balance := (Balance a - amount)%float;
               Transactions := Transactions a ++ [tx];
               CreatedAt := CreatedAt a |} in
  let t' := {| ID := ID t; OwnerName := OwnerName t;
               Balance := (Balance t + amount)%float;
               Transactions := Transactions t ++ [toTx];
               CreatedAt := CreatedAt t |} in
  let w1 := {| heap := <[to := t']> (<[account s := a']> (heap w));
               storage := storage w; clock := clock w;
               ticks := S (S (S (S (ticks w)))) |} in
  Transfer s to amount w =
    match SaveAccount (storage w) (heap w1) (account s) with
    | Some (b1, Some e) => Some (Some e, set_storage b1 w1)
    | Some (b1, None) =>
        match SaveAccount b1 (heap w1) to with
        | Some (b2, e) => Some (e, set_storage b2 w1)
        | None => None
        end
    | None => None
    end.
Proof.
  intros Hpos Ha Hfunds Ht Hid. simpl.
  pose proof (distinct_ID_distinct_loc _ _ _ _ _ Ha Ht Hid) as Hloc.
  unfold Transfer. rewrite Hpos.
  unfold bind at 1. rewrite (deref_eq _ _ _ Ha), Hfunds.
  unfold bind at 1. rewrite (deref_eq _ _ _ Ht).
  apply String.eqb_neq in Hid. rewrite Hid.
  unfold bind at 1. rewrite (update_eq _ _ _ _ Ha).
  unfold bind, new_Transaction, time_Now, ret, update, storage_SaveAccount. simpl.
  rewrite lookup_insert_eq. simpl. rewrite insert_insert_eq.
  rewrite lookup_insert_ne by exact Hloc. rewrite Ht. simpl.
  rewrite lookup_insert_eq. simpl. rewrite insert_insert_eq.
  destruct (SaveAccount _ _ (account s)) as [[b1 [e|]]|]; simpl; try reflexivity.
Qed.

(** A transfer that returned [nil] passed its three validations. *)
Lemma Transfer_success_inv s to amount w w' :
  Transfer s to amount w = Some (None, w') →
  ∃ a t, (amount <=? 0)%float = false ∧ heap w !! account s = Some a ∧
         (Balance a <? amount)%float = false ∧ heap w !! to = Some t ∧
         ID a ≠ ID t.
Proof.
  unfold Transfer. destruct (amount <=? 0)%float eqn:Hpos; [discriminate|].
  unfold bind at 1. unfold deref at 1.
  destruct (heap w !! account s) as [a|] eqn:Ha; [|discriminate].
  destruct (Balance a <? amount)%float eqn:Hfunds; [discriminate|].
  unfold bind at 1. unfold deref at 1.
  destruct (heap w !! to) as [t|] eqn:Ht; [|discriminate].
  destruct (String.eqb (ID a) (ID t)) eqn:Hid; [discriminate|].
  intros _. exists a, t. apply String.eqb_neq in Hid. auto.
Qed.

End Steps.

(* ===================================================================== *)
(** * Validation failures *)
(* ===================================================================== *)

Section Validation.
Context `{GoLib} {B : Type} `{!Storage B}.
Implicit Types (w : World B) (s : AccountServiceImpl) (a t : Account).

(** C3, as amended: a transfer whose target has the identifier of the
    source always fails and leaves the world as it was, but the error
    follows the order of the three checks: [ErrInvalidAmount] when
    [amount <= 0], otherwise [ErrInsufficientFunds] when the balance is
    below the amount, and [ErrSameAccountTransfer] only when the amount
    passed both. The target may be the bound account itself or another
    heap cell carrying the same identifier. *)
Theorem Transfer_same_ID s to amount w a t :
  heap w !! account s = Some a →
  heap w !! to = Some t →
  ID a = ID t →
  Transfer s to amount w =
    Some (Some (if (amount <=? 0)%float then ErrInvalidAmount
                else if (Balance a <? amount)%float then ErrInsufficientFunds
                else ErrSameAccountTransfer), w).
Proof.
  intros Ha Ht Hid. unfold Transfer.
  destruct (amount <=? 0)%float; [reflexivity|].
  unfold bind at 1. rewrite (deref_eq _ _ _ Ha).
  destruct (Balance a <? amount)%float; [reflexivity|].
  unfold bind at 1. rewrite (deref_eq _ _ _ Ht).
  apply String.eqb_eq in Hid. now rewrite Hid.
Qed.

(** C4, as amended: Deposit with [amount <= 0] returns
    [ErrInvalidAmount]; Withdraw with an amount above the balance returns
    [ErrInsufficientFunds] when that amount is positive, which is always
    so when the balance is not negative, and [ErrInvalidAmount] when the
    amount is [<= 0]; all these failures leave the world, hence the
    account's balance and transactions, exactly as they were. *)
Theorem Deposit_Withdraw_validation s w :
  (∀ amount, (amount <=? 0)%float = true →
     Deposit s amount w = Some (Some ErrInvalidAmount, w)) ∧
  (∀ amount a,
     heap w !! account s = Some a →
     (Balance a <? amount)%float = true →
     Withdraw s amount w =
       Some (Some (if (amount <=? 0)%float then ErrInvalidAmount
                   else ErrInsufficientFunds), w) ∧
     ((0 <=? Balance a)%float = true ∨ (0 <? amount)%float = true →
      Withdraw s amount w = Some (Some ErrInsufficientFunds, w))).
Proof.
  split.
  - intros amount Hd. unfold Deposit. now rewrite Hd.
  - intros amount a Ha Hw.
    assert (Hrun : Withdraw s amount w =
              Some (Some (if (amount <=? 0)%float then ErrInvalidAmount
                          else ErrInsufficientFunds), w)).
    { unfold Withdraw. destruct (amount <=? 0)%float; [reflexivity|].
      unfold bind at 1. now rewrite (deref_eq _ _ _ Ha), Hw. }
    split; [exact Hrun|].
    intros Hpos. rewrite Hrun.
    assert (Hle : (amount <=? 0)%float = false); [|now rewrite Hle].
    destruct Hpos as [Hb|Hp].
    + apply (nonneg_ltb_pos _ _ Hb Hw).
    + now apply ltb_true_leb_false.
Qed.

End Validation.

(* ===================================================================== *)
(** * Successful operations and persistence failures *)
(* ===================================================================== *)

Section Persistence.
Context `{GoLib} {B : Type} `{!Storage B}.
Implicit Types (w : World B) (s : AccountServiceImpl) (a t x y : Account).

(** C6: for every amount [> 0] and every bound account, Deposit adds
    exactly [amount] to the balance, appends exactly one record of type
    DEPOSIT carrying that amount, hands the account to the backend's
    [SaveAccount], and returns [nil] when that call does; no other
    account of the heap changes. *)
Theorem Deposit_positive s amount w a b :
  (0 <? amount)%float = true →
  heap w !! account s = Some a →
  let tx := {| tx_ID := "TX" ++ Sprintf_d (UnixNano (clock w (ticks w)));
               tx_Type := DepositTransaction;
               tx_Amount := amount;
               tx_Timestamp := clock w (S (ticks w));
               tx_Message := "Пополнение счета на " ++ Sprintf_2f amount |} in
  let a' := {| ID := ID a; OwnerName := OwnerName a;
               Balance := (Balance a + amount)%float;
               Transactions := Transactions a ++ [tx];
               CreatedAt := CreatedAt a |} in
  SaveAccount (storage w) (<[account s := a']> (heap w)) (account s) = Some (b, None) →
  ∃ w', Deposit s amount w = Some (None, w') ∧
        heap w' !! account s = Some a' ∧
        storage w' = b ∧
        ∀ q, q ≠ account s → heap w' !! q = heap w !! q.
Proof.
  intros Hpos Ha tx a' Hsave.
  apply ltb_true_leb_false in Hpos.
  rewrite (Deposit_run _ _ _ _ Hpos Ha). cbn zeta. cbn [heap].
  fold tx. fold a'. rewrite Hsave.
  eexists. split; [reflexivity|]. simpl. split; [apply lookup_insert_eq|].
  split; [reflexivity|]. intros q Hq. now apply lookup_insert_ne.
Qed.

(** C10: Deposit and Withdraw change the bound account in memory before
    they call [SaveAccount]; when the backend returns an error [e], the
    operation returns [e] and the heap keeps the new balance and the
    appended record. *)
Theorem single_account_save_fails s amount w a b e :
  (amount <=? 0)%float = false →
  heap w !! account s = Some a →
  (let tx := {| tx_ID := "TX" ++ Sprintf_d (UnixNano (clock w (ticks w)));
                tx_Type := DepositTransaction;
                tx_Amount := amount;
                tx_Timestamp := clock w (S (ticks w));
                tx_Message := "Пополнение счета на " ++ Sprintf_2f amount |} in
   let a' := {| ID := ID a; OwnerName := OwnerName a;
                Balance := (Balance a + amount)%float;
                Transactions := Transactions a ++ [tx];
                CreatedAt := CreatedAt a |} in
   SaveAccount (storage w) (<[account s := a']> (heap w)) (account s) = Some (b, Some e) →
   ∃ w', Deposit s amount w = Some (Some e, w') ∧ heap w' !! account s = Some a') ∧
  ((Balance a <? amount)%float = false →
   let tx := {| tx_ID := "TX" ++ Sprintf_d (UnixNano (clock w (ticks w)));
                tx_Type := WithdrawTransaction;
                tx_Amount := amount;
                tx_Timestamp := clock w (S (ticks w));
                tx_Message := "Снятие средств на " ++ Sprintf_2f amount |} in
   let a' := {| ID := ID a; OwnerName := OwnerName a;
                Balance := (Balance a - amount)%float;
                Transactions := Transactions a ++ [tx];
                CreatedAt := CreatedAt a |} in
   SaveAccount (storage w) (<[account s := a']> (heap w)) (account s) = Some (b, Some e) →
   ∃ w', Withdraw s amount w = Some (Some e, w') ∧ heap w' !! account s = Some a').
Proof.
  intros Hpos Ha. split.
  - intros tx a' Hsave.
    rewrite (Deposit_run _ _ _ _ Hpos Ha). cbn zeta. cbn [heap].
    fold tx. fold a'. rewrite Hsave.
    eexists. split; [reflexivity|]. simpl. apply lookup_insert_eq.
  - intros Hfunds tx a' Hsave.
    rewrite (Withdraw_run _ _ _ _ Hpos Ha Hfunds). cbn zeta. cbn [heap].
    fold tx. fold a'. rewrite Hsave.
    eexists. split; [reflexivity|]. simpl. apply lookup_insert_eq.
Qed.

(** C2: a transfer that returns [nil] had distinct identifiers on its two
    sides, an amount that is not [<= 0] and a covered source balance; it
    leaves the source with balance [Bx - A] and the target with balance
    [By + A] (binary64 subtraction and addition), and each of the two
    transaction sequences is the old one followed by one record whose
    amount is [A]; no other account of the heap changes. *)
Theorem Transfer_success s to amount w w' :
  Transfer s to amount w = Some (None, w') →
  ∃ x y tx toTx,
    heap w !! account s = Some x ∧ heap w !! to = Some y ∧
    ID x ≠ ID y ∧ (amount <=? 0)%float = false ∧ (Balance x <? amount)%float = false ∧
    heap w' !! account s =
      Some {| ID := ID x; OwnerName := OwnerName x;
              Balance := (Balance x - amount)%float;
              Transactions := Transactions x ++ [tx];
              CreatedAt := CreatedAt x |} ∧
    heap w' !! to =
      Some {| ID := ID y; OwnerName := OwnerName y;
              Balance := (Balance y + amount)%float;
              Transactions := Transactions y ++ [toTx];
              CreatedAt := CreatedAt y |} ∧
    tx_Amount tx = amount ∧ tx_Amount toTx = amount ∧
    tx_Type tx = TransferTransaction ∧ tx_Type toTx = TransferTransaction ∧
    ∀ q, q ≠ account s → q ≠ to → heap w' !! q = heap w !! q.
Proof.
  intros Hrun.
  destruct (Transfer_success_inv _ _ _ _ _ Hrun) as (x & y & Hpos & Hx & Hfunds & Hy & Hid).
  pose proof (distinct_ID_distinct_loc _ _ _ _ _ Hx Hy Hid) as Hloc.
  rewrite (Transfer_run _ _ _ _ _ _ Hpos Hx Hfunds Hy Hid) in Hrun.
  cbn zeta in Hrun. cbn [heap] in Hrun.
  destruct (SaveAccount (storage w) _ (account s)) as [[b1 [e1|]]|]; try discriminate.
  destruct (SaveAccount b1 _ to) as [[b2 e2]|]; try discriminate.
  injection Hrun as -> <-.
  eexists x, y, _, _. simpl.
  do 5 (split; [assumption|]).
  split; [rewrite lookup_insert_ne by auto; apply lookup_insert_eq|].
  split; [apply lookup_insert_eq|].
  do 4 (split; [reflexivity|]).
  intros q Hq1 Hq2. now rewrite !lookup_insert_ne by auto.
Qed.

(** A transfer between two accounts with different identifiers, of an
    amount [> 0] that the source balance covers, returns [nil] when both
    calls of [SaveAccount] do. *)
Lemma Transfer_returns_nil s to amount w x y :
  heap w !! account s = Some x → heap w !! to = Some y → ID x ≠ ID y →
  (0 <? amount)%float = true → (amount <=? Balance x)%float = true →
  (∀ b h p, is_Some (h !! p) → ∃ b', SaveAccount b h p = Some (b', None)) →
  ∃ w', Transfer s to amount w = Some (None, w').
Proof.
  intros Hx Hy Hid Hpos Hfunds Hsave.
  apply ltb_true_leb_false in Hpos. apply leb_true_ltb_false in Hfunds.
  pose proof (distinct_ID_distinct_loc _ _ _ _ _ Hx Hy Hid) as Hloc.
  rewrite (Transfer_run _ _ _ _ _ _ Hpos Hx Hfunds Hy Hid).
  cbn zeta. cbn [heap].
  match goal with |- context [SaveAccount (storage w) ?h (account s)] =>
    destruct (Hsave (storage w) h (account s)) as [b1 ->];
      [rewrite lookup_insert_ne by auto; rewrite lookup_insert_eq; eauto|];
    destruct (Hsave b1 h to) as [b2 ->]; [rewrite lookup_insert_eq; eauto|]
  end.
  eauto.
Qed.

(** C5: when the three validations of a transfer pass, the source is
    saved without error and the save of the target returns the error
    [e], Transfer returns [e]; the heap nevertheless holds the debited
    source and the credited target, each with its appended record, and
    the backend is in the state the two calls left it in. Nothing is
    rolled back. *)
Theorem Transfer_target_save_fails s to amount w x y b1 b2 e :
  (amount <=? 0)%float = false →
  heap w !! account s = Some x →
  (Balance x <? amount)%float = false →
  heap w !! to = Some y →
  ID x ≠ ID y →
  let tx := {| tx_ID := "TX" ++ Sprintf_d (UnixNano (clock w (ticks w)));
               tx_Type := TransferTransaction;
               tx_Amount := amount;
               tx_Timestamp := clock w (S (ticks w));
               tx_Message := "Перевод счету " ++ ID y ++ " на " ++ Sprintf_2f amount |} in
  let toTx := {| tx_ID := "TX" ++ Sprintf_d (UnixNano (clock w (S (S (ticks w)))));
                 tx_Type := TransferTransaction;
                 tx_Amount := amount;
                 tx_Timestamp := clock w (S (S (S (ticks w))));
                 tx_Message := "Перевод от счета " ++ ID x ++ " на " ++ Sprintf_2f amount |} in
  let x' := {| ID := ID x; OwnerName := OwnerName x;
               Balance := (Balance x - amount)%float;
               Transactions := Transactions x ++ [tx];
               CreatedAt := CreatedAt x |} in
  let y' := {| ID := ID y; OwnerName := OwnerName y;
               Balance := (Balance y + amount)%float;
               Transactions := Transactions y ++ [toTx];
               CreatedAt := CreatedAt y |} in
  let h1 := <[to := y']> (<[account s := x']> (heap w)) in
  SaveAccount (storage w) h1 (account s) = Some (b1, None) →
  SaveAccount b1 h1 to = Some (b2, Some e) →
  ∃ w', Transfer s to amount w = Some (Some e, w') ∧
        heap w' = h1 ∧
        heap w' !! account s = Some x' ∧
        heap w' !! to = Some y' ∧
        storage w' = b2.
Proof.
  intros Hpos Hx Hfunds Hy Hid tx toTx x' y' h1 Hsrc Hdst.
  pose proof (distinct_ID_distinct_loc _ _ _ _ _ Hx Hy Hid) as Hloc.
  rewrite (Transfer_run _ _ _ _ _ _ Hpos Hx Hfunds Hy Hid).
  cbn zeta. cbn [heap]. fold tx toTx. fold x' y'. fold h1.
  rewrite Hsrc, Hdst.
  eexists. split; [reflexivity|]. simpl. split_and!.
  - reflexivity.
  - unfold h1. rewrite lookup_insert_ne by auto. apply lookup_insert_eq.
  - apply lookup_insert_eq.
  - reflexivity.
Qed.

End Persistence.

(* ===================================================================== *)
(** * The statement *)
(* ===================================================================== *)

Section Statement.
Context `{GoLib} {B : Type} `{!Storage B}.
Implicit Types (w : World B) (s : AccountServiceImpl) (a : Account).

Lemma append_nil_r (s : string) : s ++ "" = s.
Proof. induction s as [|c s IH]; [reflexivity|]. cbv [String.append]. fold String.append. now rewrite IH. Qed.

Lemma append_assoc (s1 s2 s3 : string) : (s1 ++ s2) ++ s3 = s1 ++ s2 ++ s3.
Proof.
  induction s1 as [|c s1 IH]; [reflexivity|].
  change ((String c s1 ++ s2) ++ s3) with (String c ((s1 ++ s2) ++ s3)).
  now rewrite IH.
Qed.

(** What the loop over the transactions writes: the lines, one per
    transaction, in the order of the slice. *)
Lemma WriteString_loop (line : Transaction → string) (txs : list Transaction) (sb : string) :
  fold_left (λ sb tx, WriteString sb (line tx)) txs sb
  = sb ++ fold_right String.append "" (map line txs).
Proof.
  revert sb. induction txs as [|tx txs IH]; intros sb; simpl.
  - now rewrite append_nil_r.
  - rewrite IH. unfold WriteString. apply append_assoc.
Qed.

(** C8: on an account without transactions GetStatement returns the fixed
    message; on an account with N >= 1 transactions it returns the header
    (owner and identifier between two rules), then the N lines
    [timestamp | type | amount | message], one per transaction in the
    order of the sequence, then a rule and the current balance. In both
    cases the world is returned as it was received. *)
Theorem GetStatement_report s w a :
  heap w !! account s = Some a →
  let line := λ tx : Transaction,
    Time_Format (tx_Timestamp tx) "2006-01-02 15:04:05" ++ " | " ++ tx_Type tx
      ++ " | " ++ Sprintf_2f (tx_Amount tx) ++ " | " ++ tx_Message tx ++ LF in
  let lines := map line (Transactions a) in
  length lines = length (Transactions a) ∧
  GetStatement s w =
    Some (match Transactions a with
          | [] => "История транзакций пуста"
          | _ :: _ =>
              "Выписка по счету:" ++ LF
              ++ "========================================" ++ LF
              ++ "Владелец: " ++ OwnerName a ++ LF
              ++ "ID счета: " ++ ID a ++ LF
              ++ "========================================" ++ LF
              ++ fold_right String.append "" lines
              ++ "========================================" ++ LF
              ++ "Текущий баланс: " ++ Sprintf_2f (Balance a) ++ LF
          end, w).
Proof.
  intros Ha line lines. split; [apply length_map|].
  unfold GetStatement, bind. rewrite (deref_eq _ _ _ Ha).
  destruct (Transactions a) as [|tx txs] eqn:Htxs; [reflexivity|].
  change (length (tx :: txs) =? 0)%nat with false. cbv iota.
  unfold ret. do 2 f_equal.
  rewrite (WriteString_loop statement_line). unfold WriteString, rule.
  subst lines. change statement_line with line.
  rewrite !append_assoc. reflexivity.
Qed.

End Statement.

(* ===================================================================== *)
(** * The in-memory storage *)
(* ===================================================================== *)

Section MemoryStorageFacts.
Context `{GoLib}.

(** C9: saving an account in the in-memory storage and loading it by its
    identifier gives back the pointer that was saved, hence the very
    state that was saved, balance and transactions included; and saving
    the same account a second time leaves the storage as the first save
    left it. *)
Theorem MemoryStorage_save_load (st : MemoryStorage) (h : gmap loc Account) p a :
  h !! p = Some a →
  ∃ st', SaveAccount st h p = Some (st', None) ∧
         (∃ q, LoadAccount st' (ID a) = (Some q, None) ∧ h !! q = Some a) ∧
         SaveAccount st' h p = Some (st', None).
Proof.
  intros Hp. exists {| accounts := <[ID a := p]> (accounts st) |}.
  simpl. unfold MemoryStorage_SaveAccount, MemoryStorage_LoadAccount. rewrite Hp. simpl.
  split; [reflexivity|]. split.
  - exists p. now rewrite lookup_insert_eq.
  - now rewrite insert_insert_eq.
Qed.

(** The save of the in-memory storage never fails on an allocated
    account. *)
Lemma MemoryStorage_save_total (st : MemoryStorage) (h : gmap loc Account) p :
  is_Some (h !! p) → ∃ st', SaveAccount st h p = Some (st', None).
Proof.
  intros [a Hp]. simpl. unfold MemoryStorage_SaveAccount. rewrite Hp. eauto.
Qed.

End MemoryStorageFacts.

(* ===================================================================== *)
(** * The balance invariant under finite amounts *)
(* ===================================================================== *)

Section Invariant.
Context `{GoLib} {B : Type} `{!Storage B}.
Implicit Types (w : World B) (s : AccountServiceImpl) (a t : Account).

Lemma nonneg_insert (h : gmap loc Account) p a' :
  (∀ q a, h !! q = Some a → (0 <=? Balance a)%float = true) →
  (0 <=? Balance a')%float = true →
  ∀ q a, <[p := a']> h !! q = Some a → (0 <=? Balance a)%float = true.
Proof.
  intros Hh Ha' q a Hq.
  apply lookup_insert_Some in Hq as [[_ <-]|[_ Hq]]; [exact Ha'|exact (Hh _ _ Hq)].
Qed.

(** Whatever it returns, Deposit of a finite amount keeps every balance
    non-negative. *)
Lemma Deposit_keeps_nonneg s amount w r w' :
  is_finite amount = true →
  BalancesNonNegative w →
  Deposit s amount w = Some (r, w') →
  BalancesNonNegative w'.
Proof.
  intros Hfin Hinv Hrun.
  destruct (amount <=? 0)%float eqn:Hpos.
  - unfold Deposit in Hrun. rewrite Hpos in Hrun. now injection Hrun as <- <-.
  - destruct (heap w !! account s) as [a|] eqn:Ha.
    + rewrite (Deposit_run _ _ _ _ Hpos Ha) in Hrun. cbn zeta in Hrun.
      destruct (SaveAccount _ _ _) as [[b e]|]; [|discriminate].
      injection Hrun as <- <-. unfold BalancesNonNegative. cbn [heap set_storage].
      apply nonneg_insert; [exact Hinv|]. cbn [Balance].
      apply add_nonneg; [exact (Hinv _ _ Ha)|].
      now apply ltb_true_leb_true, finite_not_leb_0.
    + unfold Deposit, bind, update in Hrun. now rewrite Hpos, Ha in Hrun.
Qed.

Lemma Withdraw_keeps_nonneg s amount w r w' :
  is_finite amount = true →
  BalancesNonNegative w →
  Withdraw s amount w = Some (r, w') →
  BalancesNonNegative w'.
Proof.
  intros Hfin Hinv Hrun.
  destruct (amount <=? 0)%float eqn:Hpos.
  { unfold Withdraw in Hrun. rewrite Hpos in Hrun. now injection Hrun as <- <-. }
  destruct (heap w !! account s) as [a|] eqn:Ha.
  2:{ unfold Withdraw, bind, deref in Hrun. now rewrite Hpos, Ha in Hrun. }
  destruct (Balance a <? amount)%float eqn:Hfunds.
  { unfold Withdraw, bind, deref in Hrun. rewrite Hpos, Ha, Hfunds in Hrun.
    now injection Hrun as <- <-. }
  rewrite (Withdraw_run _ _ _ _ Hpos Ha Hfunds) in Hrun. cbn zeta in Hrun.
  destruct (SaveAccount _ _ _) as [[b e]|]; [|discriminate].
  injection Hrun as <- <-. unfold BalancesNonNegative. cbn [heap set_storage].
  apply nonneg_insert; [exact Hinv|]. cbn [Balance].
  apply sub_nonneg; [exact Hfin|now apply finite_not_leb_0|].
  apply finite_not_ltb; [exact Hfin|exact (Hinv _ _ Ha)|exact Hfunds].
Qed.

Lemma Transfer_keeps_nonneg s to amount w r w' :
  is_finite amount = true →
  BalancesNonNegative w →
  Transfer s to amount w = Some (r, w') →
  BalancesNonNegative w'.
Proof.
  intros Hfin Hinv Hrun.
  destruct (amount <=? 0)%float eqn:Hpos.
  { unfold Transfer in Hrun. rewrite Hpos in Hrun. now injection Hrun as <- <-. }
  destruct (heap w !! account s) as [a|] eqn:Ha.
  2:{ unfold Transfer, bind, deref in Hrun. now rewrite Hpos, Ha in Hrun. }
  destruct (Balance a <? amount)%float eqn:Hfunds.
  { unfold Transfer, bind, deref in Hrun. rewrite Hpos, Ha, Hfunds in Hrun.
    now injection Hrun as <- <-. }
  destruct (heap w !! to) as [t|] eqn:Ht.
  2:{ unfold Transfer, bind, deref in Hrun. now rewrite Hpos, Ha, Hfunds, Ht in Hrun. }
  destruct (String.eqb (ID a) (ID t)) eqn:Hid.
  { unfold Transfer, bind, deref in Hrun. rewrite Hpos, Ha, Hfunds, Ht, Hid in Hrun.
    now injection Hrun as <- <-. }
  apply String.eqb_neq in Hid.
  rewrite (Transfer_run _ _ _ _ _ _ Hpos Ha Hfunds Ht Hid) in Hrun. cbn zeta in Hrun.
  assert (Hheap : ∀ b, BalancesNonNegative (set_storage b
            {| heap := <[to := {| ID := ID t; OwnerName := OwnerName t;
                                  Balance := (Balance t + amount)%float;
                                  Transactions := Transactions t ++
                                    [{| tx_ID := "TX" ++ Sprintf_d (UnixNano (clock w (S (S (ticks w)))));
                                        tx_Type := TransferTransaction;
                                        tx_Amount := amount;
                                        tx_Timestamp := clock w (S (S (S (ticks w))));
                                        tx_Message := "Перевод от счета " ++ ID a ++ " на "
                                                        ++ Sprintf_2f amount |}];
                                  CreatedAt := CreatedAt t |}]>
                         (<[account s := {| ID := ID a; OwnerName := OwnerName a;
                                            Balance := (Balance a - amount)%float;
                                            Transactions := Transactions a ++
                                              [{| tx_ID := "TX" ++ Sprintf_d (UnixNano (clock w (ticks w)));
                                                  tx_Type := TransferTransaction;
                                                  tx_Amount := amount;
                                                  tx_Timestamp := clock w (S (ticks w));
                                                  tx_Message := "Перевод счету " ++ ID t ++ " на "
                                                                  ++ Sprintf_2f amount |}];
                                            CreatedAt := CreatedAt a |}]> (heap w));
               storage := storage w; clock := clock w;
               ticks := S (S (S (S (ticks w)))) |})).
  { intros b. unfold BalancesNonNegative. cbn [heap set_storage].
    apply nonneg_insert; [apply nonneg_insert; [exact Hinv|]|]; cbn [Balance].
    - apply sub_nonneg; [exact Hfin|now apply finite_not_leb_0|].
      apply finite_not_ltb; [exact Hfin|exact (Hinv _ _ Ha)|exact Hfunds].
    - apply add_nonneg; [exact (Hinv _ _ Ht)|].
      now apply ltb_true_leb_true, finite_not_leb_0. }
  destruct (SaveAccount (storage w) _ (account s)) as [[b1 [e1|]]|]; [| |discriminate].
  - injection Hrun as <- <-. apply Hheap.
  - destruct (SaveAccount b1 _ to) as [[b2 e2]|]; [|discriminate].
    injection Hrun as <- <-. apply Hheap.
Qed.

(** What remains of C1 once NaN and the infinities are set aside: along
    any sequence of operations that all return [nil] and are all called
    with a finite amount, every balance stays [>= 0]. *)
Theorem finite_amounts_keep_balances_nonneg (ops : list Op) :
  ∀ w w',
    Forall (λ o, is_finite (op_amount o) = true) ops →
    BalancesNonNegative w →
    run_successfully ops w = Some w' →
    BalancesNonNegative w'.
Proof.
  induction ops as [|o ops IH]; intros w w' Hfin Hinv Hrun; simpl in Hrun.
  - now injection Hrun as <-.
  - apply Forall_cons in Hfin as [Ho Hops].
    destruct (run_op o w) as [[[e|] w1]|] eqn:Hop; try discriminate.
    apply (IH w1 w' Hops); [|exact Hrun].
    destruct o as [s amount|s amount|s to amount]; simpl in Ho, Hop.
    + exact (Deposit_keeps_nonneg _ _ _ _ _ Ho Hinv Hop).
    + exact (Withdraw_keeps_nonneg _ _ _ _ _ Ho Hinv Hop).
    + exact (Transfer_keeps_nonneg _ _ _ _ _ _ Ho Hinv Hop).
Qed.

End Invariant.

(* ===================================================================== *)
(** * Transaction identifiers *)
(* ===================================================================== *)

Section Identifiers.
Context `{GoLib} {B : Type} `{!Storage B}.
Implicit Types (w : World B) (s : AccountServiceImpl).

(** [%d] prints different integers differently. *)
Lemma Sprintf_d_inj (n m : Z) : Sprintf_d n = Sprintf_d m → n = m.
Proof.
  unfold Sprintf_d. intros Heq. apply DecimalZ.to_int_inj.
  assert (Hnil : ∀ z, Z.to_int z ≠ Decimal.Pos Decimal.Nil ∧
                      Z.to_int z ≠ Decimal.Neg Decimal.Nil).
  { intros [|p|p]; simpl; split; try discriminate; intros [= Hp];
      now apply DecimalPos.Unsigned.to_uint_nonnil in Hp. }
  destruct (Hnil n) as [Hn1 Hn2]. destruct (Hnil m) as [Hm1 Hm2].
  pose proof (NilZero.isi _ Hn1 Hn2) as Hn. pose proof (NilZero.isi _ Hm1 Hm2) as Hm.
  rewrite Heq in Hn. congruence.
Qed.

(** The two records of a transfer that returned [nil] carry the same
    identifier exactly when the first and the third of its four clock
    readings have the same [UnixNano]. *)
Lemma Transfer_IDs_equal_iff s to amount w w' :
  Transfer s to amount w = Some (None, w') →
  ∃ x y tx toTx,
    heap w !! account s = Some x ∧ heap w !! to = Some y ∧
    Transactions <$> heap w' !! account s = Some (Transactions x ++ [tx])%list ∧
    Transactions <$> heap w' !! to = Some (Transactions y ++ [toTx])%list ∧
    (tx_ID tx = tx_ID toTx ↔
     UnixNano (clock w (ticks w)) = UnixNano (clock w (S (S (ticks w))))).
Proof.
  intros Hrun.
  destruct (Transfer_success_inv _ _ _ _ _ Hrun) as (x & y & Hpos & Hx & Hfunds & Hy & Hid).
  pose proof (distinct_ID_distinct_loc _ _ _ _ _ Hx Hy Hid) as Hloc.
  rewrite (Transfer_run _ _ _ _ _ _ Hpos Hx Hfunds Hy Hid) in Hrun. cbn zeta in Hrun.
  cbn [heap] in Hrun.
  destruct (SaveAccount (storage w) _ (account s)) as [[b1 [e1|]]|]; try discriminate.
  destruct (SaveAccount b1 _ to) as [[b2 e2]|]; try discriminate.
  injection Hrun as -> <-.
  eexists x, y, _, _. cbn [heap set_storage].
  split; [exact Hx|]. split; [exact Hy|].
  split; [rewrite lookup_insert_ne by auto; rewrite lookup_insert_eq; reflexivity|].
  split; [rewrite lookup_insert_eq; reflexivity|].
  cbn [tx_ID]. split.
  - intros Heq. apply (inj (String.app "TX")) in Heq. now apply Sprintf_d_inj.
  - now intros ->.
Qed.

End Identifiers.

(* ===================================================================== *)
(** * Runs on concrete worlds *)
(* ===================================================================== *)

Section ConcreteRuns.

(** The scenario of the specification runs as it says: balances 60 and
    40, two transactions on A and one on B, and the last withdrawal
    refused for lack of funds. *)
Lemma scenario_run :
  fst <$> scenario {| heap := ∅; storage := NewMemoryStorage;
                      clock := ticking_clock; ticks := 0 |}
  = Some (None, None, Some ErrInsufficientFunds, 60%float, 40%float, 2%nat, 1%nat).
Proof. vm_compute. reflexivity. Qed.

Lemma sim_world_nonneg clk : BalancesNonNegative (sim_world 0 0 clk).
Proof.
  intros p a Hp. unfold sim_world in Hp. cbn [heap] in Hp.
  apply lookup_insert_Some in Hp as [[<- <-]|[_ Hp]]; [reflexivity|].
  apply lookup_insert_Some in Hp as [[<- <-]|[_ Hp]]; [reflexivity|].
  now rewrite lookup_empty in Hp.
Qed.

(** C1 fails on the code: the validation [amount <= 0] of Deposit lets
    NaN through, since every comparison with NaN is false. From a world
    whose balances are all zero, [Deposit(NaN)] returns [nil] and leaves
    the balance NaN, for which [balance >= 0] is false. *)
Theorem Deposit_NaN_breaks_invariant :
  BalancesNonNegative (sim_world 0 0 ticking_clock) ∧
  ∃ w', run_successfully [OpDeposit (NewAccountService 1) nan]
          (sim_world 0 0 ticking_clock) = Some w' ∧
        Balance <$> heap w' !! 1%positive = Some nan ∧
        ¬ BalancesNonNegative w'.
Proof.
  split; [apply sim_world_nonneg|].
  eexists. split; [reflexivity|]. split; [reflexivity|].
  intros Hinv. specialize (Hinv 1%positive _ eq_refl). discriminate Hinv.
Qed.

(** The same defect through an infinite amount: [Deposit(+Inf)] followed
    by [Withdraw(+Inf)] both return [nil], and [Inf - Inf] is NaN. *)
Lemma Withdraw_infinity_breaks_invariant :
  ∃ w', run_successfully [OpDeposit (NewAccountService 1) infinity;
                          OpWithdraw (NewAccountService 1) infinity]
          (sim_world 0 0 ticking_clock) = Some w' ∧
        Balance <$> heap w' !! 1%positive = Some nan ∧
        ¬ BalancesNonNegative w'.
Proof.
  eexists. split; [reflexivity|]. split; [reflexivity|].
  intros Hinv. specialize (Hinv 1%positive _ eq_refl). discriminate Hinv.
Qed.

(** C7 fails on the code: with a clock that gives the same reading
    twice, different records carry the same identifier. So do the two
    records of one transfer, which differ in their messages and belong to
    different accounts, and so do the records of two successive deposits
    of different amounts on one account. *)
Theorem duplicate_transaction_IDs :
  (∃ w' tx toTx,
     Transfer (NewAccountService 1) 2 40 (sim_world 100 0 coarse_clock) = Some (None, w') ∧
     Transactions <$> heap w' !! 1%positive = Some [tx] ∧
     Transactions <$> heap w' !! 2%positive = Some [toTx] ∧
     tx_Message tx ≠ tx_Message toTx ∧
     tx_ID tx = "TX1700000000000000000" ∧
     tx_ID toTx = "TX1700000000000000000") ∧
  (∃ w' tx1 tx2,
     run_successfully [OpDeposit (NewAccountService 1) 10;
                       OpDeposit (NewAccountService 1) 20]
       (sim_world 0 0 coarse_clock) = Some w' ∧
     Transactions <$> heap w' !! 1%positive = Some [tx1; tx2] ∧
     tx_Amount tx1 ≠ tx_Amount tx2 ∧
     tx_ID tx1 = "TX1700000000000000000" ∧
     tx_ID tx2 = "TX1700000000000000000").
Proof.
  split.
  - eexists _, _, _. split; [reflexivity|].
    split; [reflexivity|]. split; [reflexivity|].
    split; [discriminate|]. split; reflexivity.
  - eexists _, _, _. split; [reflexivity|]. split; [reflexivity|].
    split; [|split; reflexivity].
    cbn [tx_Amount]. intros Heq.
    assert (Hb : (10 =? 20)%float = true) by (rewrite Heq; reflexivity).
    discriminate Hb.
Qed.

(** C3 as stated fails: a transfer to the bound account itself returns
    [ErrInvalidAmount] for a negative amount and [ErrInsufficientFunds]
    for an amount above the balance, not [ErrSameAccountTransfer]. *)
Lemma Transfer_self_other_errors :
  Transfer (NewAccountService 1) 1 (-1) (sim_world 100 0 ticking_clock)
    = Some (Some ErrInvalidAmount, sim_world 100 0 ticking_clock) ∧
  Transfer (NewAccountService 1) 1 1000 (sim_world 100 0 ticking_clock)
    = Some (Some ErrInsufficientFunds, sim_world 100 0 ticking_clock) ∧
  ErrInvalidAmount ≠ ErrSameAccountTransfer ∧
  ErrInsufficientFunds ≠ ErrSameAccountTransfer.
Proof. split_and!; try reflexivity; discriminate. Qed.

Lemma Transfer_same_ID_witness :
  heap (sim_world 100 0 ticking_clock) !! 1%positive = Some (sim_account "ACC1" "Ann" 100) ∧
  ID (sim_account "ACC1" "Ann" 100) = ID (sim_account "ACC1" "Ann" 100) ∧
  Transfer (NewAccountService 1) 1 40 (sim_world 100 0 ticking_clock)
    = Some (Some ErrSameAccountTransfer, sim_world 100 0 ticking_clock).
Proof.
  split; [reflexivity|]. split; [reflexivity|].
  exact (Transfer_same_ID (NewAccountService 1) 1 40 (sim_world 100 0 ticking_clock)
           (sim_account "ACC1" "Ann" 100) (sim_account "ACC1" "Ann" 100)
           eq_refl eq_refl eq_refl).
Defined.

(** C4 as stated fails on an account whose balance is negative: an
    amount above the balance but not above zero is rejected by the first
    check, with [ErrInvalidAmount]. *)
Lemma Withdraw_above_negative_balance :
  heap (sim_world (-5) 0 ticking_clock) !! 1%positive = Some (sim_account "ACC1" "Ann" (-5)) ∧
  (Balance (sim_account "ACC1" "Ann" (-5)) <? -1)%float = true ∧
  Withdraw (NewAccountService 1) (-1) (sim_world (-5) 0 ticking_clock)
    = Some (Some ErrInvalidAmount, sim_world (-5) 0 ticking_clock) ∧
  ErrInvalidAmount ≠ ErrInsufficientFunds.
Proof. split_and!; try reflexivity; discriminate. Qed.

Lemma Deposit_Withdraw_validation_witness :
  (-20 <=? 0)%float = true ∧
  heap (sim_world 100 0 ticking_clock) !! 1%positive = Some (sim_account "ACC1" "Ann" 100) ∧
  (Balance (sim_account "ACC1" "Ann" 100) <? 1000)%float = true ∧
  Deposit (NewAccountService 1) (-20) (sim_world 100 0 ticking_clock)
    = Some (Some ErrInvalidAmount, sim_world 100 0 ticking_clock) ∧
  Withdraw (NewAccountService 1) 1000 (sim_world 100 0 ticking_clock)
    = Some (Some ErrInsufficientFunds, sim_world 100 0 ticking_clock).
Proof.
  split; [reflexivity|]. split; [reflexivity|]. split; [reflexivity|].
  destruct (Deposit_Withdraw_validation (NewAccountService 1)
              (sim_world 100 0 ticking_clock)) as [Hd Hw].
  split; [exact (Hd (-20)%float eq_refl)|].
  destruct (Hw 1000%float (sim_account "ACC1" "Ann" 100) eq_refl eq_refl) as [_ Hfunds].
  apply Hfunds. left. reflexivity.
Defined.

Lemma Deposit_positive_witness :
  (0 <? 40)%float = true ∧
  heap (sim_world 100 0 ticking_clock) !! 1%positive = Some (sim_account "ACC1" "Ann" 100) ∧
  ∃ w', Deposit (NewAccountService 1) 40 (sim_world 100 0 ticking_clock) = Some (None, w') ∧
        Balance <$> heap w' !! 1%positive = Some 140%float ∧
        length <$> (Transactions <$> heap w' !! 1%positive) = Some 1%nat ∧
        LoadAccount (storage w') "ACC1" = (Some 1%positive, None).
Proof.
  split; [reflexivity|]. split; [reflexivity|].
  edestruct (Deposit_positive (NewAccountService 1) 40 (sim_world 100 0 ticking_clock)
               (sim_account "ACC1" "Ann" 100)
               {| accounts := <["ACC1" := 1%positive]>
                                (accounts (storage (sim_world 100 0 ticking_clock))) |})
    as (w' & Hrun & Hheap & Hst & _);
    [reflexivity | reflexivity | vm_compute; reflexivity |].
  exists w'. split; [exact Hrun|]. cbn [account NewAccountService] in Hheap.
  rewrite Hheap, Hst. split_and!; reflexivity.
Defined.

Lemma single_account_save_fails_witness :
  (40 <=? 0)%float = false ∧
  heap (sim_world_quota 0 100 0) !! 1%positive = Some (sim_account "ACC1" "Ann" 100) ∧
  (Balance (sim_account "ACC1" "Ann" 100) <? 40)%float = false ∧
  (∃ w', Deposit (NewAccountService 1) 40 (sim_world_quota 0 100 0)
           = Some (Some (ErrIO "no space left on device"), w') ∧
         Balance <$> heap w' !! 1%positive = Some 140%float ∧
         length <$> (Transactions <$> heap w' !! 1%positive) = Some 1%nat) ∧
  (∃ w', Withdraw (NewAccountService 1) 40 (sim_world_quota 0 100 0)
           = Some (Some (ErrIO "no space left on device"), w') ∧
         Balance <$> heap w' !! 1%positive = Some 60%float ∧
         length <$> (Transactions <$> heap w' !! 1%positive) = Some 1%nat).
Proof.
  split; [reflexivity|]. split; [reflexivity|]. split; [reflexivity|].
  destruct (single_account_save_fails (NewAccountService 1) 40 (sim_world_quota 0 100 0)
              (sim_account "ACC1" "Ann" 100) (storage (sim_world_quota 0 100 0))
              (ErrIO "no space left on device") eq_refl eq_refl) as [Hd Hw].
  split.
  - edestruct Hd as (w' & Hrun & Hheap); [vm_compute; reflexivity|].
    exists w'. split; [exact Hrun|]. cbn [account NewAccountService] in Hheap.
    rewrite Hheap. split; reflexivity.
  - edestruct Hw as (w' & Hrun & Hheap); [reflexivity | vm_compute; reflexivity|].
    exists w'. split; [exact Hrun|]. cbn [account NewAccountService] in Hheap.
    rewrite Hheap. split; reflexivity.
Defined.

Lemma Transfer_success_witness :
  ∃ w', Transfer (NewAccountService 1) 2 40 (sim_world 100 0 ticking_clock) = Some (None, w') ∧
        Balance <$> heap w' !! 1%positive = Some 60%float ∧
        Balance <$> heap w' !! 2%positive = Some 40%float ∧
        length <$> (Transactions <$> heap w' !! 1%positive) = Some 1%nat ∧
        length <$> (Transactions <$> heap w' !! 2%positive) = Some 1%nat.
Proof.
  destruct (Transfer_returns_nil (NewAccountService 1) 2 40 (sim_world 100 0 ticking_clock)
              (sim_account "ACC1" "Ann" 100) (sim_account "ACC2" "Bob" 0)
              eq_refl eq_refl ltac:(discriminate) eq_refl eq_refl
              MemoryStorage_save_total) as [w' Hrun].
  exists w'. split; [exact Hrun|].
  destruct (Transfer_success _ _ _ _ _ Hrun)
    as (x & y & tx & toTx & Hx & Hy & _ & _ & _ & Hx' & Hy' & _).
  cbn [account NewAccountService] in Hx, Hx'.
  change (heap (sim_world 100 0 ticking_clock) !! 1%positive)
    with (Some (sim_account "ACC1" "Ann" 100)) in Hx.
  change (heap (sim_world 100 0 ticking_clock) !! 2%positive)
    with (Some (sim_account "ACC2" "Bob" 0)) in Hy.
  injection Hx as <-. injection Hy as <-.
  rewrite Hx', Hy'. cbn [fmap option_fmap option_map Balance Transactions sim_account].
  rewrite !length_app. split_and!; reflexivity.
Defined.

Lemma Transfer_target_save_fails_witness :
  (40 <=? 0)%float = false ∧
  heap (sim_world_quota 1 100 0) !! 1%positive = Some (sim_account "ACC1" "Ann" 100) ∧
  (Balance (sim_account "ACC1" "Ann" 100) <? 40)%float = false ∧
  heap (sim_world_quota 1 100 0) !! 2%positive = Some (sim_account "ACC2" "Bob" 0) ∧
  ID (sim_account "ACC1" "Ann" 100) ≠ ID (sim_account "ACC2" "Bob" 0) ∧
  ∃ w', Transfer (NewAccountService 1) 2 40 (sim_world_quota 1 100 0)
          = Some (Some (ErrIO "no space left on device"), w') ∧
        SaveAccount (storage (sim_world_quota 1 100 0)) (heap w') 1%positive
          = Some (storage w', None) ∧
        SaveAccount (storage w') (heap w') 2%positive
          = Some (storage w', Some (ErrIO "no space left on device")) ∧
        Balance <$> heap w' !! 1%positive = Some 60%float ∧
        Balance <$> heap w' !! 2%positive = Some 40%float ∧
        length <$> (Transactions <$> heap w' !! 1%positive) = Some 1%nat ∧
        length <$> (Transactions <$> heap w' !! 2%positive) = Some 1%nat.
Proof.
  split; [reflexivity|]. split; [reflexivity|]. split; [reflexivity|].
  split; [reflexivity|]. split; [discriminate|].
  edestruct (Transfer_target_save_fails (NewAccountService 1) 2 40 (sim_world_quota 1 100 0)
               (sim_account "ACC1" "Ann" 100) (sim_account "ACC2" "Bob" 0)
               {| quota := 0; entries := <["ACC1" := 1%positive]> ∅ |}
               {| quota := 0; entries := <["ACC1" := 1%positive]> ∅ |}
               (ErrIO "no space left on device"))
    as (w' & Hrun & Hheap & _ & _ & Hst);
    [reflexivity | reflexivity | reflexivity | reflexivity | discriminate
    | vm_compute; reflexivity | vm_compute; reflexivity |].
  exists w'. split; [exact Hrun|]. rewrite Hheap, Hst. split_and!; reflexivity.
Defined.

Lemma GetStatement_report_witness :
  heap sim_world_history !! 1%positive
    = Some {| ID := "ACC1"; OwnerName := "Ann"; Balance := 70;
              Transactions :=
                [ {| tx_ID := "TX1700000000000000000"; tx_Type := "DEPOSIT";
                     tx_Amount := 100; tx_Timestamp := 1700000000000000001%Z;
                     tx_Message := "Пополнение счета на #.##" |};
                  {| tx_ID := "TX1700000000000000002"; tx_Type := "WITHDRAW";
                     tx_Amount := 30; tx_Timestamp := 1700000000000000003%Z;
                     tx_Message := "Снятие средств на #.##" |} ];
              CreatedAt := 0%Z |} ∧
  GetStatement (NewAccountService 1) sim_world_history =
    Some ("Выписка по счету:" ++ LF
          ++ "========================================" ++ LF
          ++ "Владелец: Ann" ++ LF
          ++ "ID счета: ACC1" ++ LF
          ++ "========================================" ++ LF
          ++ "1700000000000000001 | DEPOSIT | #.## | Пополнение счета на #.##" ++ LF
          ++ "1700000000000000003 | WITHDRAW | #.## | Снятие средств на #.##" ++ LF
          ++ "========================================" ++ LF
          ++ "Текущий баланс: #.##" ++ LF,
          sim_world_history).
Proof.
  split; [reflexivity|].
  exact (proj2 (GetStatement_report (NewAccountService 1) sim_world_history _ eq_refl)).
Defined.

Lemma MemoryStorage_save_load_witness :
  heap (sim_world 100 0 ticking_clock) !! 1%positive = Some (sim_account "ACC1" "Ann" 100) ∧
  ∃ st', SaveAccount NewMemoryStorage (heap (sim_world 100 0 ticking_clock)) 1%positive
           = Some (st', None) ∧
         (∃ q, LoadAccount st' "ACC1" = (Some q, None) ∧
               heap (sim_world 100 0 ticking_clock) !! q
                 = Some (sim_account "ACC1" "Ann" 100)) ∧
         SaveAccount st' (heap (sim_world 100 0 ticking_clock)) 1%positive
           = Some (st', None).
Proof.
  split; [reflexivity|].
  exact (MemoryStorage_save_load NewMemoryStorage (heap (sim_world 100 0 ticking_clock))
           1%positive (sim_account "ACC1" "Ann" 100) eq_refl).
Defined.

End ConcreteRuns.
